(** * reverseproxy: a shallow embedding of src/reverse.go

    The handler code of [ReverseProxy] is modelled as a small writer monad
    over a trace of observable events: log lines, the hijack, the dial, the
    deadline calls, the writes to a connection, the relay copies, the
    closes and the goroutine spawned for the second copy direction.  The
    results of the operations the handler cannot decide itself (whether the
    [http.ResponseWriter] is an [http.Hijacker], the errors returned by
    [Hijack], [net.Dial], [SetDeadline], [Write] and [io.Copy], and the value
    of [time.Now()]) are read from an environment [Env]. *)

From Stdlib Require Import String Ascii List ZArith Bool Lia Relations.
Import ListNotations.
Open Scope string_scope.
Open Scope Z_scope.
Open Scope list_scope.
Set Warnings "-register-all".

(** ** Data model *)

(** The two connections of a CONNECT session: [clientConn] (hijacked) and
    [proxyConn] (dialed). *)
Inductive Conn := ClientConn | ProxyConn.

Definition conn_eqb (a b : Conn) : bool :=
  match a, b with
  | ClientConn, ClientConn | ProxyConn, ProxyConn => true
  | _, _ => false
  end.

(** Where [logf] sends a line: [p.ErrorLog] when set, the [log] package
    otherwise. *)
Inductive Sink := ErrorLogSink | StdLogSink.

(** [*http.Request], the two fields the handler reads. *)
Record Request := mkRequest {
  Method : string;
  URLHost : string   (* req.URL.Host *)
}.

(** [time.Duration] and [time.Time] in nanoseconds. *)
Definition Duration := Z.
Definition Time := Z.

Definition Nanosecond : Duration := 1.
Definition Second : Duration := 1000000000 * Nanosecond.
Definition Minute : Duration := 60 * Second.

(** [const defaultTimeout = time.Minute * 5] *)
Definition defaultTimeout : Duration := Minute * 5.

(** [t.Add(d)] *)
Definition time_Add (t : Time) (d : Duration) : Time := t + d.

(** The fields of [ReverseProxy] the handler reads: its own [Timeout], and
    [ErrorLog] of the embedded [*httputil.ReverseProxy] (only whether it is
    nil matters to [logf]). *)
Record ReverseProxy := mkReverseProxy {
  Timeout : Duration;
  ErrorLog_set : bool
}.

(** Observable events. [EGo body] is [go func() { ... }()]: [body] is the
    sequence of events the spawned goroutine performs. [ECopy dst src err]
    is [io.Copy(dst, src)] returning the error [err]. *)
Inductive Event :=
  | ELog (s : Sink) (msg : string)
  | EForward (req : Request)
  | EHijack
  | EDial (network addr : string)
  | ESetDeadline (c : Conn) (t : Time)
  | EWrite (c : Conn) (bytes : string)
  | ECopy (dst src : Conn) (err : option string)
  | EClose (c : Conn)
  | EGo (body : list Event).

(** Results of the operations outside the handler; a Go [error] is an
    [option string] ([None] is [nil]). *)
Record Env := mkEnv {
  env_hijacker : bool;                (* rw.(http.Hijacker) succeeds *)
  env_hijack_err : option string;
  env_dial_err : option string;
  env_now : Time;                     (* time.Now() *)
  env_client_deadline_err : option string;
  env_proxy_deadline_err : option string;
  env_write_err : option string;
  env_copy_err : Conn -> Conn -> option string  (* io.Copy(dst, src) *)
}.

(** ** A writer monad over the trace *)

Definition M (A : Type) : Type := list Event -> A * list Event.

Definition ret {A} (a : A) : M A := fun tr => (a, tr).

Definition bind {A B} (m : M A) (f : A -> M B) : M B :=
  fun tr => let (a, tr') := m tr in f a tr'.

Notation "x <- m ;; k" := (bind m (fun x => k))
  (at level 61, m at next level, right associativity).
Notation "m ;; k" := (bind m (fun _ => k))
  (at level 61, right associativity).

Definition emit (e : Event) : M unit := fun tr => (tt, app tr [e]).

(** Runs a handler from the empty trace and returns its trace. *)
Definition trace_of (m : M unit) : list Event := snd (m []).

(** [go f()]: the goroutine's own events form the body of the spawn event. *)
Definition go (body : M unit) : M unit := emit (EGo (trace_of body)).

(** ** The operations the handler calls *)

(** [func (p *ReverseProxy) logf(format string, args ...interface{})] *)
Definition logf (p : ReverseProxy) (msg : string) : M unit :=
  emit (ELog (if ErrorLog_set p then ErrorLogSink else StdLogSink) msg).

(** [p.logf("http: proxy error: %v", err)] *)
Definition proxy_error (err : string) : string := ("http: proxy error: " ++ err)%string.

Definition Hijack (env : Env) : M (option string) :=
  emit EHijack ;; ret (env_hijack_err env).

Definition Dial (env : Env) (network addr : string) : M (option string) :=
  emit (EDial network addr) ;; ret (env_dial_err env).

Definition SetDeadline (env : Env) (c : Conn) (t : Time) : M (option string) :=
  emit (ESetDeadline c t) ;;
  ret (match c with
       | ClientConn => env_client_deadline_err env
       | ProxyConn => env_proxy_deadline_err env
       end).

Definition Write (env : Env) (c : Conn) (bytes : string) : M (option string) :=
  emit (EWrite c bytes) ;; ret (env_write_err env).

Definition ioCopy (env : Env) (dst src : Conn) : M (option string) :=
  let err := env_copy_err env dst src in
  emit (ECopy dst src err) ;; ret err.

Definition Close (c : Conn) : M unit := emit (EClose c).

(** ["\r\n"] *)
Definition crlf : string := String "013"%char (String "010"%char EmptyString).

(** [[]byte("HTTP/1.0 200 OK\r\n\r\n")] *)
Definition handshake : string := ("HTTP/1.0 200 OK" ++ crlf ++ crlf)%string.

(** ** The handlers *)

(** [func (p *ReverseProxy) ProxyHTTP(rw, req)]: delegates to
    [httputil.ReverseProxy.ServeHTTP], outside this repository. *)
Definition ProxyHTTP (p : ReverseProxy) (env : Env) (req : Request) : M unit :=
  emit (EForward req).

(** The deadline computed at lines 88-93. *)
Definition session_deadline (p : ReverseProxy) (now : Time) : Time :=
  let deadline := now in
  if Timeout p =? 0 then time_Add deadline defaultTimeout
  else time_Add deadline (Timeout p).

(** The goroutine of lines 113-117. *)
Definition relay_upstream (env : Env) : M unit :=
  _ <- ioCopy env ClientConn ProxyConn ;;
  Close ClientConn ;;
  Close ProxyConn.

(** Lines 119-121, on the calling goroutine. *)
Definition relay_downstream (env : Env) : M unit :=
  _ <- ioCopy env ProxyConn ClientConn ;;
  Close ProxyConn ;;
  Close ClientConn.

(** [func (p *ReverseProxy) ProxyHTTPS(rw, req)] *)
Definition ProxyHTTPS (p : ReverseProxy) (env : Env) (req : Request) : M unit :=
  if negb (env_hijacker env) then logf p "http server does not support hijacker"
  else
  err <- Hijack env ;;
  match err with
  | Some e => logf p (proxy_error e)
  | None =>
  err <- Dial env "tcp" (URLHost req) ;;
  match err with
  | Some e => logf p (proxy_error e)
  | None =>
  let deadline := session_deadline p (env_now env) in
  err <- SetDeadline env ClientConn deadline ;;
  match err with
  | Some e => logf p (proxy_error e)
  | None =>
  err <- SetDeadline env ProxyConn deadline ;;
  match err with
  | Some e => logf p (proxy_error e)
  | None =>
  err <- Write env ClientConn handshake ;;
  match err with
  | Some e => logf p (proxy_error e)
  | None =>
  go (relay_upstream env) ;;
  relay_downstream env
  end end end end end.

(** [func (p *ReverseProxy) ServeHTTP(rw, req)] *)
Definition ServeHTTP (p : ReverseProxy) (env : Env) (req : Request) : M unit :=
  if String.eqb (Method req) "CONNECT" then ProxyHTTPS p env req
  else ProxyHTTP p env req.

(** ** Sample inputs *)

Definition env_ok : Env :=
  mkEnv true None None 1000 None None None (fun _ _ => None).

Definition proxy0 : ReverseProxy := mkReverseProxy 0 false.

Example trace_ok :
  trace_of (ServeHTTP proxy0 env_ok (mkRequest "CONNECT" "example.com:443")) =
  [EHijack; EDial "tcp" "example.com:443";
   ESetDeadline ClientConn (1000 + defaultTimeout);
   ESetDeadline ProxyConn (1000 + defaultTimeout);
   EWrite ClientConn handshake;
   EGo [ECopy ClientConn ProxyConn None; EClose ClientConn; EClose ProxyConn];
   ECopy ProxyConn ClientConn None; EClose ProxyConn; EClose ClientConn].
Proof. reflexivity. Qed.

(** ** Views of a trace *)

(** Every event of a trace, including the events of the goroutines it
    spawns (a goroutine's body follows its spawn event). *)
Fixpoint event_all (e : Event) : list Event :=
  match e with
  | EGo body =>
      EGo body :: (fix go_all (l : list Event) : list Event :=
                     match l with
                     | [] => []
                     | x :: t => event_all x ++ go_all t
                     end) body
  | _ => [e]
  end.

Definition all_events (tr : list Event) : list Event := flat_map event_all tr.

Definition is_write (e : Event) : bool :=
  match e with EWrite _ _ => true | _ => false end.

Definition is_log (e : Event) : bool :=
  match e with ELog _ _ => true | _ => false end.

Definition is_dial (e : Event) : bool :=
  match e with EDial _ _ => true | _ => false end.

Definition is_close (e : Event) : bool :=
  match e with EClose _ => true | _ => false end.

Definition is_deadline (e : Event) : bool :=
  match e with ESetDeadline _ _ => true | _ => false end.

(** An event of the relay phase: a copy, or the spawn of the goroutine
    that copies. *)
Definition is_relay (e : Event) : bool :=
  match e with ECopy _ _ _ | EGo _ => true | _ => false end.

Definition log_sink (p : ReverseProxy) : Sink :=
  if ErrorLog_set p then ErrorLogSink else StdLogSink.

(** ** More sample inputs *)

Definition req_connect : Request := mkRequest "CONNECT" "example.com:443".

Definition env_no_hijacker : Env :=
  mkEnv false None None 1000 None None None (fun _ _ => None).

Definition env_dial_refused : Env :=
  mkEnv true None (Some "dial tcp 10.0.0.1:443: connect: connection refused")
        1000 None None None (fun _ _ => None).

Definition env_write_broken : Env :=
  mkEnv true None None 1000 None None (Some "write: broken pipe") (fun _ _ => None).

Definition env_relay_reset : Env :=
  mkEnv true None None 1000 None None None
        (fun _ _ => Some "read: connection reset by peer").

Definition proxy_negative : ReverseProxy := mkReverseProxy (-1000000000) false.

(** [err == nil] *)
Definition is_none {A} (o : option A) : bool :=
  match o with None => true | Some _ => false end.

(** Every step of lines 66-111 succeeds: the session reaches the relay. *)
Definition established (env : Env) : bool :=
  env_hijacker env && is_none (env_hijack_err env) && is_none (env_dial_err env)
  && is_none (env_client_deadline_err env) && is_none (env_proxy_deadline_err env)
  && is_none (env_write_err env).

(** ** The relay phase as a transition system

    After the handshake two goroutines run: the spawned one executes the
    events of [relay_upstream], the calling one those of
    [relay_downstream].  Their steps interleave arbitrarily.  A connection
    is open until its first [Close]; [Close] on a closed [net.Conn] changes
    nothing (it only returns an error), so [c_closes] counts the closes that
    took effect and [c_close_calls] every call.  [c_peer_done] records that
    reading the connection now fails or hits EOF (the far end closed it, it
    broke, or its deadline passed), which the environment may cause at any
    time. *)

Record ConnState := mkConnState {
  c_open : bool;
  c_peer_done : bool;
  c_closes : nat;
  c_close_calls : nat
}.

Record RelayState := mkRelayState {
  rs_client : ConnState;
  rs_proxy : ConnState;
  rs_main : list Event;   (* the rest of the calling goroutine *)
  rs_go : list Event      (* the rest of the spawned goroutine *)
}.

Definition conn_state (st : RelayState) (c : Conn) : ConnState :=
  match c with ClientConn => rs_client st | ProxyConn => rs_proxy st end.

Definition set_conn (st : RelayState) (c : Conn) (cs : ConnState) : RelayState :=
  match c with
  | ClientConn => mkRelayState cs (rs_proxy st) (rs_main st) (rs_go st)
  | ProxyConn => mkRelayState (rs_client st) cs (rs_main st) (rs_go st)
  end.

Definition with_main (st : RelayState) (l : list Event) : RelayState :=
  mkRelayState (rs_client st) (rs_proxy st) l (rs_go st).

Definition with_go (st : RelayState) (l : list Event) : RelayState :=
  mkRelayState (rs_client st) (rs_proxy st) (rs_main st) l.

(** [conn.Close()] *)
Definition close_conn (cs : ConnState) : ConnState :=
  mkConnState false (c_peer_done cs)
    (if c_open cs then S (c_closes cs) else c_closes cs)
    (S (c_close_calls cs)).

Definition peer_done (cs : ConnState) : ConnState :=
  mkConnState (c_open cs) true (c_closes cs) (c_close_calls cs).

(** [io.Copy(dst, src)] returns once reading [src] fails or ends, or once
    either connection is closed locally (reads and writes then fail). *)
Definition copy_can_return (st : RelayState) (dst src : Conn) : bool :=
  c_peer_done (conn_state st src) || negb (c_open (conn_state st src))
  || negb (c_open (conn_state st dst)).

(** One event of a goroutine; [None] when it blocks. *)
Definition exec_event (st : RelayState) (e : Event) : option RelayState :=
  match e with
  | ECopy dst src _ => if copy_can_return st dst src then Some st else None
  | EClose c => Some (set_conn st c (close_conn (conn_state st c)))
  | _ => Some st
  end.

Inductive thread_step : RelayState -> RelayState -> Prop :=
  | step_main st e rest st' :
      rs_main st = e :: rest -> exec_event st e = Some st' ->
      thread_step st (with_main st' rest)
  | step_go st e rest st' :
      rs_go st = e :: rest -> exec_event st e = Some st' ->
      thread_step st (with_go st' rest).

Inductive relay_step : RelayState -> RelayState -> Prop :=
  | relay_thread st st' : thread_step st st' -> relay_step st st'
  | relay_peer st c : relay_step st (set_conn st c (peer_done (conn_state st c))).

Definition fresh_conn : ConnState := mkConnState true false 0 0.

Definition relay_init (env : Env) : RelayState :=
  mkRelayState fresh_conn fresh_conn
    (trace_of (relay_downstream env)) (trace_of (relay_upstream env)).

Definition relay_done (st : RelayState) : Prop := rs_main st = [] /\ rs_go st = [].

(** Number of [Close] calls on [c] still to run in a goroutine's rest. *)
Fixpoint count_close (c : Conn) (l : list Event) : nat :=
  match l with
  | [] => 0%nat
  | EClose c' :: t => if conn_eqb c c' then S (count_close c t) else count_close c t
  | _ :: t => count_close c t
  end.

(** The relay goroutines only copy between the two distinct connections
    and close them. *)
Definition relay_event_ok (e : Event) : Prop :=
  match e with
  | ECopy dst src _ => dst <> src
  | EClose _ => True
  | _ => False
  end.

(** A connection with [pending] closes still to come: two [Close] calls in
    all, open exactly until the first one, closed once after it. *)
Definition conn_inv (cs : ConnState) (pending : nat) : Prop :=
  (c_close_calls cs + pending = 2)%nat /\
  c_open cs = Nat.eqb (c_close_calls cs) 0 /\
  c_closes cs = (if c_open cs then 0 else 1)%nat.

Definition relay_inv (st : RelayState) : Prop :=
  Forall relay_event_ok (rs_main st) /\ Forall relay_event_ok (rs_go st) /\
  forall c, conn_inv (conn_state st c) (count_close c (rs_main st) + count_close c (rs_go st)).

(** ** [NewReverseProxy] and the shared [http.DefaultTransport] *)

(** [*tls.Config], two of its fields. *)
Record TLSConfig := mkTLSConfig {
  ServerName : string;
  InsecureSkipVerify : bool
}.

(** [http.Transport], two of its fields. *)
Record Transport := mkTransport {
  TLSClientConfig : option TLSConfig;
  MaxIdleConns : Z
}.

(** The Go heap holding [http.Transport] values, by address. *)
Definition Loc := nat.
Definition Heap := Loc -> option Transport.

Definition heap_upd (h : Heap) (l : Loc) (t : Transport) : Heap :=
  fun l' => if Nat.eqb l l' then Some t else h l'.

(** An [http.RoundTripper] interface value: nil, a [*http.Transport], or
    another implementation. *)
Inductive RoundTripper :=
  | RTNil
  | RTTransport (l : Loc)
  | RTOther (name : string).

(** [var DefaultTransport RoundTripper = &Transport{...}], at address 0. *)
Definition DefaultTransportLoc : Loc := 0%nat.
Definition DefaultTransport : RoundTripper := RTTransport DefaultTransportLoc.

(** [*httputil.ReverseProxy], the fields [NewReverseProxy] touches. *)
Record HttputilReverseProxy := mkHttputilReverseProxy {
  rp_Target : string;
  rp_Transport : RoundTripper
}.

(** [httputil.NewSingleHostReverseProxy(target)] leaves [Transport] nil. *)
Definition NewSingleHostReverseProxy (target : string) : HttputilReverseProxy :=
  mkHttputilReverseProxy target RTNil.

(** [func NewReverseProxy(target, tlsClientConfig) *ReverseProxy]; the
    result is the embedded [*httputil.ReverseProxy] ([Timeout] is 0) and
    the heap after the call; [None] is a panic (failed type assertion or
    nil dereference). *)
Definition NewReverseProxy (target : string) (tlsClientConfig : option TLSConfig)
    (h : Heap) : option (HttputilReverseProxy * Heap) :=
  let p := NewSingleHostReverseProxy target in
  let p := match rp_Transport p with
           | RTNil => mkHttputilReverseProxy (rp_Target p) DefaultTransport
           | _ => p
           end in
  match tlsClientConfig with
  | None => Some (p, h)
  | Some cfg =>
      match rp_Transport p with
      | RTTransport l =>
          match h l with
          | Some t =>
              Some (mkHttputilReverseProxy (rp_Target p) (RTTransport l),
                    heap_upd h l (mkTransport (Some cfg) (MaxIdleConns t)))
          | None => None
          end
      | _ => None
      end
  end.

(** The TLS client configuration a client with transport [rt] uses; a nil
    transport means [http.DefaultTransport] (as for [http.DefaultClient]). *)
Definition transport_tls (h : Heap) (rt : RoundTripper) : option (option TLSConfig) :=
  match rt with
  | RTNil => option_map TLSClientConfig (h DefaultTransportLoc)
  | RTTransport l => option_map TLSClientConfig (h l)
  | RTOther _ => None
  end.

Definition heap0 : Heap :=
  fun l => if Nat.eqb l DefaultTransportLoc then Some (mkTransport None 100) else None.

Definition tls_cfg : TLSConfig := mkTLSConfig "backend.internal" true.

(** ** The paths through [ProxyHTTPS] *)

Section Paths.
Variables (p : ReverseProxy) (env : Env) (req : Request).

Let d := session_deadline p (env_now env).
Let est := [EHijack; EDial "tcp" (URLHost req);
            ESetDeadline ClientConn d; ESetDeadline ProxyConn d].

Lemma trace_no_hijacker :
  env_hijacker env = false ->
  trace_of (ProxyHTTPS p env req) =
    [ELog (log_sink p) "http server does not support hijacker"].
Proof. intros H. unfold trace_of, ProxyHTTPS. rewrite H. reflexivity. Qed.

Lemma trace_hijack_error e :
  env_hijacker env = true -> env_hijack_err env = Some e ->
  trace_of (ProxyHTTPS p env req) = [EHijack; ELog (log_sink p) (proxy_error e)].
Proof. intros H1 H2. unfold trace_of, ProxyHTTPS. rewrite H1. cbn. rewrite H2. reflexivity. Qed.

Lemma trace_dial_error e :
  env_hijacker env = true -> env_hijack_err env = None ->
  env_dial_err env = Some e ->
  trace_of (ProxyHTTPS p env req) =
    [EHijack; EDial "tcp" (URLHost req); ELog (log_sink p) (proxy_error e)].
Proof.
  intros H1 H2 H3. unfold trace_of, ProxyHTTPS. rewrite H1. cbn.
  rewrite H2. cbn. rewrite H3. reflexivity.
Qed.

Lemma trace_client_deadline_error e :
  env_hijacker env = true -> env_hijack_err env = None ->
  env_dial_err env = None -> env_client_deadline_err env = Some e ->
  trace_of (ProxyHTTPS p env req) =
    [EHijack; EDial "tcp" (URLHost req); ESetDeadline ClientConn d;
     ELog (log_sink p) (proxy_error e)].
Proof.
  intros H1 H2 H3 H4. unfold trace_of, ProxyHTTPS. rewrite H1. cbn.
  rewrite H2. cbn. rewrite H3. cbn. rewrite H4. reflexivity.
Qed.

Lemma trace_proxy_deadline_error e :
  env_hijacker env = true -> env_hijack_err env = None ->
  env_dial_err env = None -> env_client_deadline_err env = None ->
  env_proxy_deadline_err env = Some e ->
  trace_of (ProxyHTTPS p env req) = est ++ [ELog (log_sink p) (proxy_error e)].
Proof.
  intros H1 H2 H3 H4 H5. unfold trace_of, ProxyHTTPS. rewrite H1. cbn.
  rewrite H2. cbn. rewrite H3. cbn. rewrite H4. cbn. rewrite H5. reflexivity.
Qed.

Lemma trace_write_error e :
  env_hijacker env = true -> env_hijack_err env = None ->
  env_dial_err env = None -> env_client_deadline_err env = None ->
  env_proxy_deadline_err env = None -> env_write_err env = Some e ->
  trace_of (ProxyHTTPS p env req) =
    est ++ [EWrite ClientConn handshake; ELog (log_sink p) (proxy_error e)].
Proof.
  intros H1 H2 H3 H4 H5 H6. unfold trace_of, ProxyHTTPS. rewrite H1. cbn.
  rewrite H2. cbn. rewrite H3. cbn. rewrite H4. cbn. rewrite H5. cbn.
  rewrite H6. reflexivity.
Qed.

Lemma trace_established :
  env_hijacker env = true -> env_hijack_err env = None ->
  env_dial_err env = None -> env_client_deadline_err env = None ->
  env_proxy_deadline_err env = None -> env_write_err env = None ->
  trace_of (ProxyHTTPS p env req) =
    est ++ [EWrite ClientConn handshake; EGo (trace_of (relay_upstream env))]
        ++ trace_of (relay_downstream env).
Proof.
  intros H1 H2 H3 H4 H5 H6. unfold trace_of, ProxyHTTPS. rewrite H1. cbn.
  rewrite H2. cbn. rewrite H3. cbn. rewrite H4. cbn. rewrite H5. cbn.
  rewrite H6. reflexivity.
Qed.
End Paths.

(** Case analysis over the six exits of [ProxyHTTPS], rewriting its trace
    with the matching path lemma. *)
Ltac trace_cases p env req :=
  let e := fresh "e" in
  destruct (env_hijacker env) eqn:?;
  [ destruct (env_hijack_err env) as [e|] eqn:?;
    [ rewrite (trace_hijack_error p env req e) by assumption
    | destruct (env_dial_err env) as [e|] eqn:?;
      [ rewrite (trace_dial_error p env req e) by assumption
      | destruct (env_client_deadline_err env) as [e|] eqn:?;
        [ rewrite (trace_client_deadline_error p env req e) by assumption
        | destruct (env_proxy_deadline_err env) as [e|] eqn:?;
          [ rewrite (trace_proxy_deadline_error p env req e) by assumption
          | destruct (env_write_err env) as [e|] eqn:?;
            [ rewrite (trace_write_error p env req e) by assumption
            | rewrite (trace_established p env req) by assumption ]]]]]
  | rewrite (trace_no_hijacker p env req) by assumption ];
  try congruence.

(** The tunnel handler never delegates to the forwarding handler. *)
Lemma ProxyHTTPS_never_forwards p env req r :
  ~ In (EForward r) (all_events (trace_of (ProxyHTTPS p env req))).
Proof. trace_cases p env req; simpl; intuition discriminate. Qed.

(** ** Claims *)

(** C1 (code_bug). When [net.Dial] fails after a successful hijack,
    [ProxyHTTPS] logs the error and returns without ever closing the hijacked
    client connection: no close event occurs at all. *)
Theorem ProxyHTTPS_dial_error_leaves_client_open p env req e :
  env_hijacker env = true -> env_hijack_err env = None ->
  env_dial_err env = Some e ->
  trace_of (ProxyHTTPS p env req) =
    [EHijack; EDial "tcp" (URLHost req); ELog (log_sink p) (proxy_error e)] /\
  ~ In (EClose ClientConn) (all_events (trace_of (ProxyHTTPS p env req))).
Proof.
  intros H1 H2 H3. rewrite (trace_dial_error p env req e H1 H2 H3).
  split; [reflexivity | simpl; intuition discriminate].
Qed.

Lemma ProxyHTTPS_dial_error_leaves_client_open_witness :
  trace_of (ProxyHTTPS proxy0 env_dial_refused req_connect) =
    [EHijack; EDial "tcp" "example.com:443";
     ELog StdLogSink (proxy_error "dial tcp 10.0.0.1:443: connect: connection refused")] /\
  ~ In (EClose ClientConn)
       (all_events (trace_of (ProxyHTTPS proxy0 env_dial_refused req_connect))).
Proof.
  apply (ProxyHTTPS_dial_error_leaves_client_open proxy0 env_dial_refused req_connect
           "dial tcp 10.0.0.1:443: connect: connection refused"); reflexivity.
Defined.

(** C2 (code_bug). When a [SetDeadline] call or the handshake [Write]
    fails, [ProxyHTTPS] logs and returns without closing either connection:
    the trace has no close event. *)
Theorem ProxyHTTPS_establishment_error_closes_nothing p env req :
  env_hijacker env = true -> env_hijack_err env = None ->
  env_dial_err env = None ->
  (env_client_deadline_err env <> None \/ env_proxy_deadline_err env <> None \/
   env_write_err env <> None) ->
  filter is_close (all_events (trace_of (ProxyHTTPS p env req))) = [].
Proof.
  intros H1 H2 H3 Herr.
  destruct (env_client_deadline_err env) as [e|] eqn:E4.
  { rewrite (trace_client_deadline_error p env req e); auto. }
  destruct (env_proxy_deadline_err env) as [e|] eqn:E5.
  { rewrite (trace_proxy_deadline_error p env req e); auto. }
  destruct (env_write_err env) as [e|] eqn:E6.
  { rewrite (trace_write_error p env req e); auto. }
  exfalso; intuition congruence.
Qed.

Lemma ProxyHTTPS_establishment_error_closes_nothing_witness :
  filter is_close (all_events (trace_of (ProxyHTTPS proxy0 env_write_broken req_connect))) = [].
Proof.
  apply ProxyHTTPS_establishment_error_closes_nothing; try reflexivity.
  right; right; discriminate.
Defined.

(** C3. [ServeHTTP] runs the tunnel handler exactly when the method string
    is ["CONNECT"] (exact, case-sensitive string equality) and the
    forwarding handler for every other method string; the request is
    forwarded iff its method is not ["CONNECT"]. *)
Theorem ServeHTTP_dispatch p env req :
  ((Method req = "CONNECT" /\
    trace_of (ServeHTTP p env req) = trace_of (ProxyHTTPS p env req)) \/
   (Method req <> "CONNECT" /\
    trace_of (ServeHTTP p env req) = trace_of (ProxyHTTP p env req))) /\
  (In (EForward req) (all_events (trace_of (ServeHTTP p env req))) <->
   Method req <> "CONNECT").
Proof.
  unfold ServeHTTP.
  destruct (String.eqb_spec (Method req) "CONNECT") as [Hm|Hm].
  - split; [left; auto|]. split.
    + intros Hin. exfalso. exact (ProxyHTTPS_never_forwards p env req req Hin).
    + intros Hne. contradiction.
  - split; [right; auto|]. split; [auto | intros _; simpl; auto].
Qed.

Example ServeHTTP_lowercase_connect_forwards :
  trace_of (ServeHTTP proxy0 env_ok (mkRequest "connect" "example.com:443")) =
    [EForward (mkRequest "connect" "example.com:443")].
Proof. reflexivity. Qed.

Example ServeHTTP_padded_connect_forwards :
  trace_of (ServeHTTP proxy0 env_ok (mkRequest "CONNECT " "example.com:443")) =
    [EForward (mkRequest "CONNECT " "example.com:443")].
Proof. reflexivity. Qed.

(** C4. Once hijack, dial and both deadlines succeed, the only write of the
    session (over the handler and its goroutine) is [handshake], i.e. the
    bytes "HTTP/1.0 200 OK\r\n\r\n", to the client connection, and nothing
    of the relay (no copy, no spawn of the copying goroutine) happens
    before it. *)
Theorem ProxyHTTPS_handshake_before_relay p env req :
  env_hijacker env = true -> env_hijack_err env = None ->
  env_dial_err env = None -> env_client_deadline_err env = None ->
  env_proxy_deadline_err env = None ->
  filter is_write (all_events (trace_of (ProxyHTTPS p env req))) =
    [EWrite ClientConn handshake] /\
  exists pre post,
    trace_of (ProxyHTTPS p env req) = pre ++ EWrite ClientConn handshake :: post /\
    filter is_relay (all_events pre) = [].
Proof.
  intros H1 H2 H3 H4 H5.
  destruct (env_write_err env) as [e|] eqn:H6.
  - rewrite (trace_write_error p env req e) by assumption.
    split; [reflexivity|]. eexists _, _. split; [reflexivity | reflexivity].
  - rewrite (trace_established p env req) by assumption.
    split; [reflexivity|]. eexists _, _. split; [reflexivity | reflexivity].
Qed.

Lemma ProxyHTTPS_handshake_before_relay_witness :
  filter is_write (all_events (trace_of (ProxyHTTPS proxy0 env_ok req_connect))) =
    [EWrite ClientConn handshake] /\
  exists pre post,
    trace_of (ProxyHTTPS proxy0 env_ok req_connect) =
      pre ++ EWrite ClientConn handshake :: post /\
    filter is_relay (all_events pre) = [].
Proof. apply ProxyHTTPS_handshake_before_relay; reflexivity. Defined.

(** C5. Once hijack and dial succeed, the deadline calls are: the client
    connection gets now + Timeout (now + 5 minutes when Timeout is 0), and,
    unless that call fails, the upstream connection gets the same value. *)
Theorem ProxyHTTPS_deadline_value p env req :
  env_hijacker env = true -> env_hijack_err env = None ->
  env_dial_err env = None ->
  let d := env_now env + (if Timeout p =? 0 then 5 * 60 * 1000000000 else Timeout p) in
  filter is_deadline (all_events (trace_of (ProxyHTTPS p env req))) =
    ESetDeadline ClientConn d ::
    match env_client_deadline_err env with
    | None => [ESetDeadline ProxyConn d]
    | Some _ => []
    end.
Proof.
  intros H1 H2 H3 d.
  assert (Hd : session_deadline p (env_now env) = d).
  { subst d. unfold session_deadline, time_Add. destruct (Timeout p =? 0); reflexivity. }
  destruct (env_client_deadline_err env) as [e|] eqn:H4.
  { rewrite (trace_client_deadline_error p env req e), Hd by assumption. reflexivity. }
  destruct (env_proxy_deadline_err env) as [e|] eqn:H5.
  { rewrite (trace_proxy_deadline_error p env req e), Hd by assumption. reflexivity. }
  destruct (env_write_err env) as [e|] eqn:H6.
  { rewrite (trace_write_error p env req e), Hd by assumption. reflexivity. }
  rewrite (trace_established p env req), Hd by assumption. reflexivity.
Qed.

Lemma ProxyHTTPS_deadline_value_witness :
  filter is_deadline (all_events (trace_of (ProxyHTTPS proxy0 env_ok req_connect))) =
    [ESetDeadline ClientConn (1000 + 300000000000);
     ESetDeadline ProxyConn (1000 + 300000000000)].
Proof. apply (ProxyHTTPS_deadline_value proxy0 env_ok req_connect); reflexivity. Defined.

(** C7, counterexample. With both relay copies failing ("connection reset
    by peer"), the session's trace holds both failed copies and no log line
    at all: the relay errors are not logged. *)
Lemma relay_errors_logged_counterexample :
  In (ECopy ProxyConn ClientConn (Some "read: connection reset by peer"))
     (all_events (trace_of (ProxyHTTPS proxy0 env_relay_reset req_connect))) /\
  In (ECopy ClientConn ProxyConn (Some "read: connection reset by peer"))
     (all_events (trace_of (ProxyHTTPS proxy0 env_relay_reset req_connect))) /\
  ~ exists s msg,
      In (ELog s msg) (all_events (trace_of (ProxyHTTPS proxy0 env_relay_reset req_connect))).
Proof.
  split; [simpl; tauto|]. split; [simpl; tauto|].
  intros (s & msg & Hin). simpl in Hin. intuition discriminate.
Qed.

(** C7, as amended. Once the tunnel is established, the errors returned by
    the two [io.Copy] calls are dropped silently: the session (handler and
    goroutine) logs nothing, dials exactly once (no retry), and the handler
    returns [tt], so no error reaches its caller. *)
Theorem ProxyHTTPS_relay_errors_dropped p env req :
  env_hijacker env = true -> env_hijack_err env = None ->
  env_dial_err env = None -> env_client_deadline_err env = None ->
  env_proxy_deadline_err env = None -> env_write_err env = None ->
  filter is_log (all_events (trace_of (ProxyHTTPS p env req))) = [] /\
  filter is_dial (all_events (trace_of (ProxyHTTPS p env req))) =
    [EDial "tcp" (URLHost req)] /\
  fst (ProxyHTTPS p env req []) = tt.
Proof.
  intros H1 H2 H3 H4 H5 H6.
  rewrite (trace_established p env req) by assumption.
  split; [reflexivity|]. split; [reflexivity|]. destruct (fst _); reflexivity.
Qed.

Lemma ProxyHTTPS_relay_errors_dropped_witness :
  filter is_log (all_events (trace_of (ProxyHTTPS proxy0 env_relay_reset req_connect))) = [] /\
  filter is_dial (all_events (trace_of (ProxyHTTPS proxy0 env_relay_reset req_connect))) =
    [EDial "tcp" "example.com:443"] /\
  fst (ProxyHTTPS proxy0 env_relay_reset req_connect []) = tt.
Proof. apply ProxyHTTPS_relay_errors_dropped; reflexivity. Defined.

(** C8. When [rw] is not an [http.Hijacker], the handler logs
    "http server does not support hijacker" and returns: it writes nothing
    and dials nothing. *)
Theorem ProxyHTTPS_no_hijacker p env req :
  env_hijacker env = false ->
  trace_of (ProxyHTTPS p env req) =
    [ELog (log_sink p) "http server does not support hijacker"] /\
  filter is_write (all_events (trace_of (ProxyHTTPS p env req))) = [] /\
  filter is_dial (all_events (trace_of (ProxyHTTPS p env req))) = [].
Proof.
  intros H. rewrite (trace_no_hijacker p env req H). repeat split.
Qed.

Lemma ProxyHTTPS_no_hijacker_witness :
  trace_of (ProxyHTTPS proxy0 env_no_hijacker req_connect) =
    [ELog StdLogSink "http server does not support hijacker"] /\
  filter is_write (all_events (trace_of (ProxyHTTPS proxy0 env_no_hijacker req_connect))) = [] /\
  filter is_dial (all_events (trace_of (ProxyHTTPS proxy0 env_no_hijacker req_connect))) = [].
Proof. apply ProxyHTTPS_no_hijacker; reflexivity. Defined.

(** C10. Only [Timeout = 0] selects the default: a negative [Timeout] gives
    the deadline now + Timeout, strictly before now, and it is set on both
    connections (once hijack, dial and the first deadline call succeed). *)
Theorem ProxyHTTPS_negative_timeout p env req :
  Timeout p < 0 ->
  env_hijacker env = true -> env_hijack_err env = None ->
  env_dial_err env = None -> env_client_deadline_err env = None ->
  session_deadline p (env_now env) = env_now env + Timeout p /\
  env_now env + Timeout p < env_now env /\
  In (ESetDeadline ClientConn (env_now env + Timeout p))
     (all_events (trace_of (ProxyHTTPS p env req))) /\
  In (ESetDeadline ProxyConn (env_now env + Timeout p))
     (all_events (trace_of (ProxyHTTPS p env req))).
Proof.
  intros Hneg H1 H2 H3 H4.
  assert (Hd : session_deadline p (env_now env) = env_now env + Timeout p).
  { unfold session_deadline, time_Add.
    destruct (Z.eqb_spec (Timeout p) 0); [lia | reflexivity]. }
  split; [exact Hd|]. split; [lia|].
  destruct (env_proxy_deadline_err env) as [e|] eqn:H5.
  { rewrite (trace_proxy_deadline_error p env req e), Hd by assumption. simpl; tauto. }
  destruct (env_write_err env) as [e|] eqn:H6.
  { rewrite (trace_write_error p env req e), Hd by assumption. simpl; tauto. }
  rewrite (trace_established p env req), Hd by assumption. simpl; tauto.
Qed.

Lemma ProxyHTTPS_negative_timeout_witness :
  session_deadline proxy_negative 1000 = 1000 + (-1000000000) /\
  1000 + (-1000000000) < 1000 /\
  In (ESetDeadline ClientConn (1000 + (-1000000000)))
     (all_events (trace_of (ProxyHTTPS proxy_negative env_ok req_connect))) /\
  In (ESetDeadline ProxyConn (1000 + (-1000000000)))
     (all_events (trace_of (ProxyHTTPS proxy_negative env_ok req_connect))).
Proof.
  apply (ProxyHTTPS_negative_timeout proxy_negative env_ok req_connect);
    first [reflexivity | unfold proxy_negative; simpl; lia].
Defined.

(** ** The relay phase *)

Lemma conn_state_set st c cs c' :
  conn_state (set_conn st c cs) c' = if conn_eqb c c' then cs else conn_state st c'.
Proof. destruct c, c'; reflexivity. Qed.

Lemma conn_state_with_main st l c : conn_state (with_main st l) c = conn_state st c.
Proof. destruct c; reflexivity. Qed.

Lemma conn_state_with_go st l c : conn_state (with_go st l) c = conn_state st c.
Proof. destruct c; reflexivity. Qed.

Lemma exec_event_threads st e st' :
  exec_event st e = Some st' -> rs_main st' = rs_main st /\ rs_go st' = rs_go st.
Proof.
  destruct e; simpl; try (intros H; injection H as <-; auto).
  - destruct (copy_can_return st dst src); [intros H; injection H as <-; auto | discriminate].
  - destruct c; auto.
Qed.

Lemma close_conn_inv cs n : conn_inv cs (S n) -> conn_inv (close_conn cs) n.
Proof.
  destruct cs as [o pd k m]; unfold conn_inv, close_conn; simpl.
  intros (Hm & Ho & Hk). subst o.
  destruct (Nat.eqb_spec m 0); subst; simpl; repeat split; lia.
Qed.

Lemma peer_done_inv cs n : conn_inv cs n -> conn_inv (peer_done cs) n.
Proof. destruct cs; unfold conn_inv; simpl; auto. Qed.

(** Running one relay event updates the connections as the invariant
    expects, given the closes still pending elsewhere. *)
Lemma exec_event_inv st e rest st' other :
  relay_event_ok e -> exec_event st e = Some st' ->
  (forall c, conn_inv (conn_state st c) (count_close c (e :: rest) + other c)) ->
  forall c, conn_inv (conn_state st' c) (count_close c rest + other c).
Proof.
  intros Hok Hex Hinv c. destruct e; simpl in Hok; try contradiction.
  - simpl in Hex. destruct (copy_can_return st dst src); [|discriminate].
    injection Hex as <-. exact (Hinv c).
  - simpl in Hex. injection Hex as <-. rewrite conn_state_set.
    specialize (Hinv c). simpl in Hinv.
    destruct (conn_eqb c0 c) eqn:E.
    + assert (c0 = c) by (destruct c0, c; simpl in E; congruence). subst c0.
      destruct c; simpl in Hinv; apply close_conn_inv; exact Hinv.
    + assert (conn_eqb c c0 = false) as E' by (destruct c0, c; simpl in *; congruence).
      rewrite E' in Hinv. exact Hinv.
Qed.

Lemma relay_inv_step st st' : relay_inv st -> relay_step st st' -> relay_inv st'.
Proof.
  intros (Hm & Hg & Hc) Hstep. destruct Hstep as [st st' Ht | st c0].
  - destruct Ht as [st e rest st'' Hmain Hex | st e rest st'' Hgo Hex];
      destruct (exec_event_threads st e st'' Hex) as [Em Eg].
    + rewrite Hmain in Hm. inversion Hm; subst.
      split; [assumption|]. unfold with_main; simpl. rewrite Eg.
      split; [assumption|]. intros c.
      pose proof (exec_event_inv st e rest st'' (fun c => count_close c (rs_go st)))
        as Hi.
      rewrite Hmain in Hc. specialize (Hi H1 Hex Hc c).
      destruct c; exact Hi.
    + rewrite Hgo in Hg. inversion Hg; subst.
      unfold with_go; simpl. rewrite Em.
      split; [assumption|]. split; [assumption|]. intros c.
      pose proof (exec_event_inv st e rest st'' (fun c => count_close c (rs_main st)))
        as Hi.
      assert (Hc' : forall c, conn_inv (conn_state st c)
                      (count_close c (e :: rest) + count_close c (rs_main st))).
      { intros c'. rewrite <- Hgo, Nat.add_comm. apply Hc. }
      specialize (Hi H1 Hex Hc' c). rewrite Nat.add_comm.
      destruct c; exact Hi.
  - split; [destruct c0; exact Hm|]. split; [destruct c0; exact Hg|].
    intros c. rewrite conn_state_set.
    destruct (conn_eqb c0 c) eqn:E.
    + assert (c0 = c) by (destruct c0, c; simpl in E; congruence). subst c0.
      apply peer_done_inv. destruct c; apply Hc.
    + destruct c0; apply Hc.
Qed.

Lemma relay_inv_init env : relay_inv (relay_init env).
Proof.
  unfold relay_inv, relay_init, trace_of; simpl.
  split; [repeat constructor; discriminate|].
  split; [repeat constructor; discriminate|].
  intros []; unfold conn_inv; simpl; repeat split.
Qed.

Lemma relay_inv_reachable env st :
  clos_refl_trans _ relay_step (relay_init env) st -> relay_inv st.
Proof.
  intros Hr. apply clos_rt_rt1n in Hr.
  assert (relay_inv (relay_init env)) as H0 by apply relay_inv_init.
  revert H0. induction Hr as [|x y z Hxy _ IH]; intros Hx; auto.
  apply IH. exact (relay_inv_step x y Hx Hxy).
Qed.

Lemma relay_inv_closes st c :
  relay_inv st ->
  (c_closes (conn_state st c) <= 1)%nat /\
  (c_closes (conn_state st c) = 1%nat <-> c_open (conn_state st c) = false).
Proof.
  intros (_ & _ & Hc). destruct (Hc c) as (_ & _ & Hk). rewrite Hk.
  destruct (c_open (conn_state st c)); split; try lia; split; congruence.
Qed.

Lemma relay_inv_done st c :
  relay_inv st -> relay_done st ->
  c_open (conn_state st c) = false /\ c_closes (conn_state st c) = 1%nat /\
  c_close_calls (conn_state st c) = 2%nat.
Proof.
  intros (_ & _ & Hc) (Hm & Hg). destruct (Hc c) as (Hn & Ho & Hk).
  rewrite Hm, Hg in Hn. simpl in Hn.
  assert (Ho' : c_open (conn_state st c) = false) by (rewrite Ho, Nat.add_0_r in *; rewrite Hn; reflexivity).
  rewrite Ho' in Hk. repeat split; auto; lia.
Qed.

(** With one connection closed, every relay event can run. *)
Lemma exec_event_enabled st e c :
  relay_event_ok e -> c_open (conn_state st c) = false ->
  exists st', exec_event st e = Some st'.
Proof.
  intros Hok Hc. destruct e; simpl in Hok; try contradiction; simpl; eauto.
  unfold copy_can_return.
  destruct dst, src, c; try congruence; simpl in *; rewrite Hc;
    rewrite ?orb_true_r; simpl; eauto.
Qed.

Lemma relay_progress st :
  relay_inv st -> (exists c, c_open (conn_state st c) = false) ->
  (forall st', ~ thread_step st st') -> relay_done st.
Proof.
  intros (Hm & Hg & _) [c Hc] Hstuck. split.
  - destruct (rs_main st) as [|e rest] eqn:E; auto. exfalso.
    inversion Hm as [|e' rest' Hok]; subst.
    destruct (exec_event_enabled st e c Hok Hc) as [st' Hex].
    exact (Hstuck _ (step_main st e rest st' E Hex)).
  - destruct (rs_go st) as [|e rest] eqn:E; auto. exfalso.
    inversion Hg as [|e' rest' Hok]; subst.
    destruct (exec_event_enabled st e c Hok Hc) as [st' Hex].
    exact (Hstuck _ (step_go st e rest st' E Hex)).
Qed.

Lemma thread_step_shrinks st st' :
  thread_step st st' ->
  (length (rs_main st') + length (rs_go st') < length (rs_main st) + length (rs_go st))%nat.
Proof.
  intros [st0 e rest st'' Hm Hex | st0 e rest st'' Hg Hex];
    destruct (exec_event_threads _ _ _ Hex) as [Em Eg]; simpl.
  - rewrite Eg, Hm. simpl. lia.
  - rewrite Em, Hg. simpl. lia.
Qed.

(** C6. Once the tunnel is established, [ProxyHTTPS] hands
    [relay_upstream] to a new goroutine and runs [relay_downstream] itself.
    In every interleaving of the two goroutines and of the far ends: each
    connection is closed (takes effect) at most once, and exactly once when
    it is no longer open; when both goroutines have finished, each
    connection has been closed exactly once, although [Close] was called on
    it twice (the second call is a no-op of [net.Conn]); as soon as one
    connection is closed no goroutine can stay blocked in its copy, so the
    goroutines, whose steps strictly shrink their remaining code, finish and
    close the other connection. *)
Theorem relay_closes_each_conn_once p env req :
  env_hijacker env = true -> env_hijack_err env = None ->
  env_dial_err env = None -> env_client_deadline_err env = None ->
  env_proxy_deadline_err env = None -> env_write_err env = None ->
  (exists pre, trace_of (ProxyHTTPS p env req) =
     pre ++ EGo (rs_go (relay_init env)) :: rs_main (relay_init env)) /\
  forall st, clos_refl_trans _ relay_step (relay_init env) st ->
    (forall c, (c_closes (conn_state st c) <= 1)%nat /\
               (c_closes (conn_state st c) = 1%nat <-> c_open (conn_state st c) = false)) /\
    (relay_done st -> forall c, c_closes (conn_state st c) = 1%nat /\
                                c_close_calls (conn_state st c) = 2%nat) /\
    ((exists c, c_open (conn_state st c) = false) ->
     (forall st', ~ thread_step st st') -> relay_done st) /\
    (forall st', thread_step st st' ->
     (length (rs_main st') + length (rs_go st') <
      length (rs_main st) + length (rs_go st))%nat).
Proof.
  intros H1 H2 H3 H4 H5 H6. split.
  - rewrite (trace_established p env req) by assumption.
    exists [EHijack; EDial "tcp" (URLHost req);
            ESetDeadline ClientConn (session_deadline p (env_now env));
            ESetDeadline ProxyConn (session_deadline p (env_now env));
            EWrite ClientConn handshake].
    reflexivity.
  - intros st Hr. pose proof (relay_inv_reachable env st Hr) as Hinv.
    split; [intros c; exact (relay_inv_closes st c Hinv)|].
    split; [intros Hd c; destruct (relay_inv_done st c Hinv Hd) as (_ & ? & ?); auto|].
    split; [exact (relay_progress st Hinv)|].
    exact (thread_step_shrinks st).
Qed.

Lemma relay_closes_each_conn_once_witness :
  (exists pre, trace_of (ProxyHTTPS proxy0 env_ok req_connect) =
     pre ++ EGo (rs_go (relay_init env_ok)) :: rs_main (relay_init env_ok)) /\
  forall st, clos_refl_trans _ relay_step (relay_init env_ok) st ->
    (forall c, (c_closes (conn_state st c) <= 1)%nat /\
               (c_closes (conn_state st c) = 1%nat <-> c_open (conn_state st c) = false)) /\
    (relay_done st -> forall c, c_closes (conn_state st c) = 1%nat /\
                                c_close_calls (conn_state st c) = 2%nat) /\
    ((exists c, c_open (conn_state st c) = false) ->
     (forall st', ~ thread_step st st') -> relay_done st) /\
    (forall st', thread_step st st' ->
     (length (rs_main st') + length (rs_go st') <
      length (rs_main st) + length (rs_go st))%nat).
Proof. apply (relay_closes_each_conn_once proxy0 env_ok req_connect); reflexivity. Defined.

(** One run of the relay: the client's far end closes, the calling
    goroutine's copy returns and closes both connections, which unblocks
    the spawned goroutine, which closes both again. *)
Example relay_run_example :
  exists st, clos_refl_trans _ relay_step (relay_init env_ok) st /\ relay_done st /\
    conn_state st ClientConn = mkConnState false true 1 2 /\
    conn_state st ProxyConn = mkConnState false false 1 2.
Proof.
  eexists. split.
  { eapply rt_trans; [apply rt_step; apply (relay_peer _ ClientConn)|].
    do 3 (eapply rt_trans;
          [apply rt_step, relay_thread; eapply step_main; reflexivity|]).
    do 2 (eapply rt_trans;
          [apply rt_step, relay_thread; eapply step_go; reflexivity|]).
    apply rt_step, relay_thread; eapply step_go; reflexivity. }
  split; [split; reflexivity|]. split; reflexivity.
Qed.

(** ** [NewReverseProxy] *)

(** C9. With a non-nil [tlsClientConfig], [NewReverseProxy] stores the
    shared [http.DefaultTransport] in the proxy and overwrites the
    [TLSClientConfig] field of that shared transport in place: afterwards
    every client using the default transport (a nil transport, or
    [http.DefaultTransport] itself) sees the new configuration, the other
    fields of the transport and the rest of the heap being unchanged. *)
Theorem NewReverseProxy_mutates_DefaultTransport target cfg h t0 :
  h DefaultTransportLoc = Some t0 ->
  exists p h',
    NewReverseProxy target (Some cfg) h = Some (p, h') /\
    rp_Transport p = DefaultTransport /\
    h' DefaultTransportLoc = Some (mkTransport (Some cfg) (MaxIdleConns t0)) /\
    (forall rt, rt = RTNil \/ rt = DefaultTransport -> transport_tls h' rt = Some (Some cfg)) /\
    (forall l, l <> DefaultTransportLoc -> h' l = h l).
Proof.
  intros H0. unfold NewReverseProxy; simpl. unfold DefaultTransport. rewrite H0.
  eexists _, _. split; [reflexivity|].
  split; [reflexivity|].
  split; [reflexivity|].
  split.
  - intros rt [-> | ->]; reflexivity.
  - intros l Hl. unfold heap_upd. destruct (Nat.eqb_spec DefaultTransportLoc l); congruence.
Qed.

Lemma NewReverseProxy_mutates_DefaultTransport_witness :
  exists p h',
    NewReverseProxy "http://backend.internal:8080" (Some tls_cfg) heap0 = Some (p, h') /\
    rp_Transport p = DefaultTransport /\
    h' DefaultTransportLoc = Some (mkTransport (Some tls_cfg) 100) /\
    (forall rt, rt = RTNil \/ rt = DefaultTransport -> transport_tls h' rt = Some (Some tls_cfg)) /\
    (forall l, l <> DefaultTransportLoc -> h' l = heap0 l).
Proof.
  apply (NewReverseProxy_mutates_DefaultTransport "http://backend.internal:8080" tls_cfg
           heap0 (mkTransport None 100)).
  reflexivity.
Defined.

Example NewReverseProxy_nil_config_keeps_heap :
  exists p, NewReverseProxy "http://backend.internal:8080" None heap0 = Some (p, heap0).
Proof. eexists. reflexivity. Qed.

(** ** Further properties of the code *)

(** Every log line of a session goes to the configured sink ([ErrorLog]
    when set, the [log] package otherwise), there is at most one, and it
    is the last thing the handler does. *)
Theorem ProxyHTTPS_single_final_log p env req :
  (length (filter is_log (all_events (trace_of (ProxyHTTPS p env req)))) <= 1)%nat /\
  forall s msg, In (ELog s msg) (all_events (trace_of (ProxyHTTPS p env req))) ->
    s = log_sink p /\
    exists pre, trace_of (ProxyHTTPS p env req) = pre ++ [ELog s msg].
Proof.
  trace_cases p env req; simpl; split; try lia; intros s msg Hin;
    repeat (destruct Hin as [Hin|Hin]; [try discriminate|]); try contradiction;
    injection Hin as <- <-; split; try reflexivity;
    match goal with |- exists pre, ?l = _ => exists (removelast l); reflexivity end.
Qed.

(** A session logs exactly one line when it does not reach the relay, and
    none when it does. *)
Theorem ProxyHTTPS_log_count p env req :
  length (filter is_log (all_events (trace_of (ProxyHTTPS p env req)))) =
    (if established env then 0 else 1)%nat.
Proof. unfold established. trace_cases p env req; reflexivity. Qed.

(** The handler dials exactly once, over "tcp" and to [req.URL.Host] as
    given (whatever that string is, no check on it), when the hijack
    succeeds, and never otherwise. *)
Theorem ProxyHTTPS_dial_target p env req :
  filter is_dial (all_events (trace_of (ProxyHTTPS p env req))) =
    if env_hijacker env && is_none (env_hijack_err env)
    then [EDial "tcp" (URLHost req)] else [].
Proof. trace_cases p env req; reflexivity. Qed.

(** The handshake is written (once, to the client) only when the dial and
    both deadline calls have succeeded: no byte reaches the client over a
    connection without its deadline. *)
Theorem ProxyHTTPS_write_after_deadlines p env req :
  filter is_write (all_events (trace_of (ProxyHTTPS p env req))) =
    if env_hijacker env && is_none (env_hijack_err env) && is_none (env_dial_err env)
       && is_none (env_client_deadline_err env) && is_none (env_proxy_deadline_err env)
    then [EWrite ClientConn handshake] else [].
Proof. trace_cases p env req; reflexivity. Qed.

(** Copies, the relay goroutine and every [Close] occur in a session iff
    all establishment steps succeed: the handler closes nothing on any of
    its error paths. *)
Theorem ProxyHTTPS_relay_iff_established p env req :
  (exists e, In e (all_events (trace_of (ProxyHTTPS p env req))) /\
             (is_relay e || is_close e) = true) <->
  established env = true.
Proof.
  unfold established.
  trace_cases p env req; (split;
    [ first [ intros _; reflexivity
            | intros (ev & Hin & Hc); simpl in Hin; intuition (subst; discriminate) ]
    | first [ intros Hf; discriminate Hf
            | intros _; exists (EClose ClientConn); split; [simpl; tauto | reflexivity] ] ]).
Qed.

(** The deadline lies strictly after the current time exactly when
    [Timeout] is not negative (0 meaning 5 minutes). *)
Theorem session_deadline_after_now p now :
  now < session_deadline p now <-> 0 <= Timeout p.
Proof.
  unfold session_deadline, time_Add, defaultTimeout, Minute, Second, Nanosecond.
  destruct (Z.eqb_spec (Timeout p) 0); lia.
Qed.

(** While neither copy has returned, both connections are open: the relay
    closes nothing before one copy direction ends. *)
Theorem relay_open_while_copying env st :
  clos_refl_trans _ relay_step (relay_init env) st ->
  rs_main st = rs_main (relay_init env) -> rs_go st = rs_go (relay_init env) ->
  c_open (rs_client st) = true /\ c_open (rs_proxy st) = true.
Proof.
  intros Hr Hm Hg. destruct (relay_inv_reachable env st Hr) as (_ & _ & Hc).
  rewrite Hm, Hg in Hc.
  destruct (Hc ClientConn) as (Hn1 & Ho1 & _). destruct (Hc ProxyConn) as (Hn2 & Ho2 & _).
  simpl in *. rewrite Ho1, Ho2.
  split; apply Nat.eqb_eq; lia.
Qed.

Lemma relay_open_while_copying_witness :
  c_open (rs_client (relay_init env_ok)) = true /\ c_open (rs_proxy (relay_init env_ok)) = true.
Proof. apply (relay_open_while_copying env_ok (relay_init env_ok)); [apply rt_refl | reflexivity | reflexivity]. Defined.



(** Two proxies built one after the other share one transport: building
    the second with a TLS configuration replaces the first proxy's TLS
    configuration, and building it without one leaves the first proxy's
    in place. *)
Theorem NewReverseProxy_last_config_wins t1 t2 c1 c2 h t0 :
  h DefaultTransportLoc = Some t0 ->
  exists p1 h1 p2 h2 p3 h3,
    NewReverseProxy t1 (Some c1) h = Some (p1, h1) /\
    NewReverseProxy t2 (Some c2) h1 = Some (p2, h2) /\
    transport_tls h2 (rp_Transport p1) = Some (Some c2) /\
    NewReverseProxy t2 None h1 = Some (p3, h3) /\
    transport_tls h3 (rp_Transport p1) = Some (Some c1).
Proof.
  intros H0. unfold NewReverseProxy; simpl. unfold DefaultTransport. rewrite H0.
  do 6 eexists. repeat split.
Qed.

Lemma NewReverseProxy_last_config_wins_witness :
  exists p1 h1 p2 h2 p3 h3,
    NewReverseProxy "http://a:80" (Some tls_cfg) heap0 = Some (p1, h1) /\
    NewReverseProxy "http://b:80" (Some (mkTLSConfig "b" false)) h1 = Some (p2, h2) /\
    transport_tls h2 (rp_Transport p1) = Some (Some (mkTLSConfig "b" false)) /\
    NewReverseProxy "http://b:80" None h1 = Some (p3, h3) /\
    transport_tls h3 (rp_Transport p1) = Some (Some tls_cfg).
Proof.
  apply (NewReverseProxy_last_config_wins _ _ _ _ heap0 (mkTransport None 100)).
  reflexivity.
Defined.
